(** * The example functions of [src/index.ts], embedded and verified

    The TypeScript file holds eight independent snippets.  Each one is
    translated below as the function it is, over a model of the values the
    language gives it:

    - a [number] is an IEEE 754 binary64 value ([spec_float] with
      [prec = 53] and [emax = 1024]); the relational operators are the
      language's, so every comparison with [NaN] is false;
    - a string is its sequence of UTF-16 code units;
    - an array is the list of its elements;
    - [null] is [None];
    - what the snippets borrow from the host's string library
      ([toUpperCase], [toLowerCase], and the conversion of a number to text
      inside a template literal) is an interface, [Host];
    - the promise of [squareAsync] lives in a small timer loop;
    - to say which calls can go wrong, the functions that take arrays are
      given a second time on arrays that may have holes, ending in a
      completion (a value or an exception), and are related to the first.

    Definitions come first, the properties after them. *)

From Stdlib Require Import String Ascii ZArith NArith PArith Bool Lia List.
From Stdlib Require Import Floats.SpecFloat.
From Stdlib Require Import Sorting.Permutation.
Import ListNotations.

(** ** Numbers *)

Module Num.

Definition prec : Z := 53.
Definition emax : Z := 1024.

Definition number : Type := spec_float.

Definition NaN : number := S754_nan.
Definition Infinity : number := S754_infinity false.

Definition isNaN (x : number) : bool :=
  match x with S754_nan => true | _ => false end.

(** The integer [z] as a number (round to nearest, ties to even). *)
Definition of_Z (z : Z) : number := binary_normalize prec emax z 0 false.
Definition of_nat (n : nat) : number := of_Z (Z.of_nat n).

(** The literals of the source. *)
Definition zero : number := S754_zero false.
Definition two : number := S754_finite false 4503599627370496 (-51).
Definition four : number := S754_finite false 4503599627370496 (-50).

(** [a < b], [a > b], [a <= b], [a >= b]: false as soon as an operand is
    [NaN]; [-0] and [+0] compare equal.  [a > b] is evaluated as [b < a],
    and [a >= b] as "not [a < b], and no [NaN]", which is [b <= a]. *)
Definition lt (a b : number) : bool := SFltb a b.
Definition gt (a b : number) : bool := SFltb b a.
Definition le (a b : number) : bool := SFleb a b.
Definition ge (a b : number) : bool := SFleb b a.

(** [a * b]: IEEE 754 multiplication. *)
Definition mul (a b : number) : number := SFmul prec emax a b.

(** [a ** 2].  ECMA-262 leaves [**] implementation-approximated; for the
    exponent 2 the engines return the correctly rounded product [a * a]
    (fdlibm's [pow], which they share, has the case [y = 2] return
    [x * x]). *)
Definition square (a : number) : number := mul a a.

(** The numbers the language has: a finite one has its mantissa and
    exponent in the form the format prescribes. *)
Definition well_formed (x : number) : Prop := valid_binary prec emax x = true.

(** A well-formed finite number is a whole multiple of the smallest step,
    [2 ^ -1074]; [steps] is that multiple, the exact value in units of the
    step. *)
Definition steps (x : number) : option Z :=
  match x with
  | S754_zero _ => Some 0%Z
  | S754_finite s m e =>
      Some ((if s then Z.neg m else Z.pos m) * 2 ^ (e + 1074))%Z
  | _ => None
  end.

End Num.

Abbreviation number := Num.number.

(** ** Strings *)

Module Str.

(** A UTF-16 code unit, [0 <= u < 65536]. *)
Definition code_unit : Type := N.

Definition jsstring : Type := list code_unit.

(** A string literal of the source (Basic Latin only). *)
Definition lit (s : string) : jsstring :=
  map N_of_ascii (list_ascii_of_string s).

(** [s.length] counts code units. *)
Definition length (s : jsstring) : number := Num.of_nat (List.length s).

End Str.

Abbreviation jsstring := Str.jsstring.

(** ** The host's string library *)

Class Host : Type := {
  (** [String.prototype.toUpperCase] and [toLowerCase] *)
  toUpperCase : jsstring -> jsstring;
  toLowerCase : jsstring -> jsstring;
  (** the text a template literal substitutes for a number *)
  numberToString : number -> jsstring
}.

(** [a ?? b] on an optional argument: [undefined] is [None]. *)
Definition nullish {A : Type} (a : option A) (b : A) : A :=
  match a with
  | Some v => v
  | None => b
  end.

(** ** [formatString] *)

Definition formatString `{Host} (input : jsstring) (toUpper : option bool)
  : jsstring :=
  if nullish toUpper true then toUpperCase input else toLowerCase input.

(** ** [filterByRating] *)

Record Rated : Type := { title : jsstring; rating : number }.

Definition filterByRating (items : list Rated) : list Rated :=
  filter (fun item => Num.gt (rating item) Num.four) items.

(** ** [concatenateArrays] *)

(** [items.push(...item)] leaves [items] extended by the elements of [item];
    [forEach] threads the array through the calls, in index order. *)
Definition push {T : Type} (items item : list T) : list T := items ++ item.

Definition concatenateArrays {T : Type} (arrays : list (list T)) : list T :=
  let items : list T := [] in
  fold_left (fun items item => push items item) arrays items.

(** ** [Vehicle] and [Car] *)

Record Vehicle : Type := { make : jsstring; year : number }.

Definition getInfo `{Host} (this : Vehicle) : jsstring :=
  Str.lit "Make: " ++ make this ++ Str.lit ", Year: "
    ++ numberToString (year this).

Record Car : Type := { super : Vehicle; model : jsstring }.

Definition new_Car (make : jsstring) (year : number) (model : jsstring) : Car :=
  {| super := {| make := make; year := year |}; model := model |}.

Definition getModel (this : Car) : jsstring :=
  Str.lit "Model: " ++ model this.

(** ** [processValue] *)

(** [string | number], told apart by [typeof]. *)
Inductive string_or_number : Type :=
| a_string (s : jsstring)
| a_number (n : number).

Definition processValue (value : string_or_number) : number :=
  match value with
  | a_string s => Str.length s
  | a_number n => Num.mul n Num.two
  end.

(** ** [getMostExpensiveProduct] *)

Record Product : Type := { name : jsstring; price : number }.

(** One call of the [forEach] callback on the variable
    [heightPriceProdect]. *)
Definition higher (heightPriceProdect product : Product) : Product :=
  if Num.gt (price product) (price heightPriceProdect)
  then product
  else heightPriceProdect.

(** [products.length === 0] is the empty list; otherwise [products[0]] is
    the head, and [forEach] visits every product, the head included. *)
Definition getMostExpensiveProduct (products : list Product) : option Product :=
  match products with
  | [] => None
  | first :: _ => Some (fold_left higher products first)
  end.

(** ** [Day] and [getDayType] *)

Inductive Day : Type :=
| Monday | Tuesday | Wednesday | Thursday | Friday | Saturday | Sunday.

(** The value the enum gives each member. *)
Definition Day_value (d : Day) : N :=
  match d with
  | Monday => 0 | Tuesday => 1 | Wednesday => 2 | Thursday => 3
  | Friday => 4 | Saturday => 5 | Sunday => 6
  end.

Definition Day_eqb (a b : Day) : bool := (Day_value a =? Day_value b)%N.

Definition getDayType (day : Day) : jsstring :=
  if Day_eqb day Saturday || Day_eqb day Sunday
  then Str.lit "Weekend"
  else Str.lit "Weekday".

(** ** [squareAsync] *)

Module Timers.

(** The state of the promise. *)
Inductive promise : Type :=
| Pending
| Fulfilled (value : number)
| Rejected (reason : jsstring).

(** [resolve] and [reject] settle a pending promise and leave a settled
    one as it is. *)
Definition resolve (value : number) (p : promise) : promise :=
  match p with Pending => Fulfilled value | _ => p end.

Definition reject (reason : jsstring) (p : promise) : promise :=
  match p with Pending => Rejected reason | _ => p end.

(** A timer: the time it is due (milliseconds) and what its callback does
    to the promise. *)
Record timer : Type := { due : N; callback : promise -> promise }.

Record loop : Type := { now : N; timers : list timer; state : promise }.

(** The queue is kept by due time, first registered first. *)
Fixpoint enqueue (t : timer) (q : list timer) : list timer :=
  match q with
  | [] => [t]
  | u :: q' => if (due u <=? due t)%N then u :: enqueue t q' else t :: q
  end.

Definition setTimeout (cb : promise -> promise) (ms : N) (l : loop) : loop :=
  {| now := now l;
     timers := enqueue {| due := (now l + ms)%N; callback := cb |} (timers l);
     state := state l |}.

(** [new Promise(executor)]: the executor runs at once, on a fresh pending
    promise. *)
Definition new_Promise (executor : loop -> loop) : loop :=
  executor {| now := 0%N; timers := []; state := Pending |}.

(** Run the timers that are due at time [t]. *)
Fixpoint fire (t : N) (q : list timer) (p : promise) : list timer * promise :=
  match q with
  | [] => ([], p)
  | u :: q' => if (due u <=? t)%N then fire t q' (callback u p) else (q, p)
  end.

(** Let [ms] milliseconds pass. *)
Definition advance (ms : N) (l : loop) : loop :=
  let t := (now l + ms)%N in
  let '(q, p) := fire t (timers l) (state l) in
  {| now := t; timers := q; state := p |}.

(** The promise once every timer has run. *)
Definition await (l : loop) : promise :=
  fold_left (fun p u => callback u p) (timers l) (state l).

End Timers.

Definition negative_error : jsstring :=
  Str.lit "Error: Negative number not allowed".

Definition squareAsync (n : number) : Timers.loop :=
  Timers.new_Promise
    (Timers.setTimeout
       (fun p =>
          if Num.lt n Num.zero
          then Timers.reject negative_error p
          else Timers.resolve (Num.square n) p)
       1000).

(** ** Arrays with holes, and calls that throw

    An array of type [T[]] need not have an element at every index below
    its length ([a = []; a[1] = x] leaves a hole at index 0).  Reading a
    hole gives [undefined]; [forEach] and [filter] pass over it; spreading
    yields [undefined] for it.  Reading a property of [undefined] throws a
    [TypeError].  An engine may bound the number of arguments of one call,
    and a spread beyond the bound throws a [RangeError].  The functions that
    take arrays are given here once more, as they run on such arrays. *)

Inductive slot (T : Type) : Type :=
| hole
| elem (x : T).

Arguments hole {T}.
Arguments elem {T} x.

(** The array without holes that holds the elements of [l]. *)
Definition dense {T : Type} (l : list T) : list (slot T) := map elem l.

(** The elements an array holds, in index order. *)
Fixpoint present {T : Type} (a : list (slot T)) : list T :=
  match a with
  | [] => []
  | hole :: a' => present a'
  | elem x :: a' => x :: present a'
  end.

(** [a[i]]: [undefined], here [None], on a hole and past the end. *)
Definition at_index {T : Type} (a : list (slot T)) (i : nat) : option T :=
  match nth_error a i with
  | Some (elem x) => Some x
  | _ => None
  end.

(** [...a]: what the array iterator yields, [undefined] for a hole. *)
Definition spread {T : Type} (a : list (slot T)) : list (option T) :=
  map (fun s => match s with hole => None | elem x => Some x end) a.

Inductive error : Type := TypeError | RangeError.

Inductive completion (A : Type) : Type :=
| Normal (a : A)
| Throw (e : error).

Arguments Normal {A} a.
Arguments Throw {A} e.

Definition bind {A B : Type} (m : completion A) (k : A -> completion B)
  : completion B :=
  match m with
  | Normal a => k a
  | Throw e => Throw e
  end.

(** [a.forEach(callback)], the variable the callback assigns to passed
    along: the callback is called on the elements present, in index order,
    and a throw ends the loop. *)
Fixpoint forEach {T S : Type} (a : list (slot T))
         (callback : T -> S -> completion S) (s : S) : completion S :=
  match a with
  | [] => Normal s
  | hole :: a' => forEach a' callback s
  | elem x :: a' => bind (callback x s) (forEach a' callback)
  end.

(** [a.filter(callback)]. *)
Fixpoint filter_array {T : Type} (a : list (slot T))
         (callback : T -> completion bool) : completion (list T) :=
  match a with
  | [] => Normal []
  | hole :: a' => filter_array a' callback
  | elem x :: a' =>
      bind (callback x) (fun keep =>
      bind (filter_array a' callback) (fun kept =>
      Normal (if keep then x :: kept else kept)))
  end.

(** The bound an engine puts on the number of arguments of one call, if it
    puts one. *)
Class Engine : Type := { argument_limit : option N }.

Definition accepts `{Engine} (arguments : nat) : bool :=
  match argument_limit with
  | Some limit => (N.of_nat arguments <=? limit)%N
  | None => true
  end.

(** [items.push(...item)]. *)
Definition push_spread `{Engine} {T : Type} (items : list (option T))
           (item : list (slot T)) : completion (list (option T)) :=
  if accepts (length (spread item))
  then Normal (items ++ spread item)
  else Throw RangeError.

(** [o.price], where [o] may be [undefined]. *)
Definition get_price (o : option Product) : completion number :=
  match o with
  | Some p => Normal (price p)
  | None => Throw TypeError
  end.

Definition run_filterByRating (items : list (slot Rated))
  : completion (list Rated) :=
  filter_array items (fun item => Normal (Num.gt (rating item) Num.four)).

(** The rest parameter [arrays] is a fresh array of the arguments: it has
    no hole, the arrays in it may have some. *)
Definition run_concatenateArrays `{Engine} {T : Type}
           (arrays : list (list (slot T))) : completion (list (option T)) :=
  let items : list (option T) := [] in
  forEach (dense arrays) (fun item items => push_spread items item) items.

(** What [getMostExpensiveProduct] hands back. *)
Inductive answer : Type :=
| found (p : Product)
| null
| undefined.

(** The callback of the scan: [product.price > heightPriceProdect.price]
    reads both prices, then assigns or not. *)
Definition scan (product : Product) (heightPriceProdect : option Product)
  : completion (option Product) :=
  bind (get_price (Some product)) (fun product_price =>
  bind (get_price heightPriceProdect) (fun highest_price =>
  Normal (if Num.gt product_price highest_price
          then Some product
          else heightPriceProdect))).

Definition run_getMostExpensiveProduct (products : list (slot Product))
  : completion answer :=
  if (length products =? 0)%nat then Normal null
  else
    let heightPriceProdect := at_index products 0 in
    bind (forEach products scan heightPriceProdect) (fun heightPriceProdect =>
    Normal (match heightPriceProdect with
            | Some p => found p
            | None => undefined
            end)).

(** ** Every operation, as one call *)

Section Calls.
Context `{Host} `{Engine}.
Variable T : Type.

Inductive call : Type :=
| call_formatString (input : jsstring) (toUpper : option bool)
| call_filterByRating (items : list (slot Rated))
| call_concatenateArrays (arrays : list (list (slot T)))
| call_getInfo (this : Vehicle)
| call_Car_getInfo (this : Car)
| call_getModel (this : Car)
| call_processValue (value : string_or_number)
| call_getMostExpensiveProduct (products : list (slot Product))
| call_getDayType (day : Day)
| call_squareAsync (n : number).

Inductive value : Type :=
| text (s : jsstring)
| num (n : number)
| rated (items : list Rated)
| array (items : list (option T))
| product (p : Product).

(** How a call ends: with a value, with [null], with [undefined], with an
    exception, with a rejected promise, or (a promise no timer settles) not
    at all. *)
Inductive outcome : Type :=
| Returned (v : value)
| Null
| Undefined
| Thrown (e : error)
| Rejected (reason : jsstring)
| Unsettled.

Definition perform (c : call) : outcome :=
  match c with
  | call_formatString input toUpper => Returned (text (formatString input toUpper))
  | call_filterByRating items =>
      match run_filterByRating items with
      | Normal kept => Returned (rated kept)
      | Throw e => Thrown e
      end
  | call_concatenateArrays arrays =>
      match run_concatenateArrays arrays with
      | Normal items => Returned (array items)
      | Throw e => Thrown e
      end
  | call_getInfo this => Returned (text (getInfo this))
  | call_Car_getInfo this => Returned (text (getInfo (super this)))
  | call_getModel this => Returned (text (getModel this))
  | call_processValue v => Returned (num (processValue v))
  | call_getMostExpensiveProduct products =>
      match run_getMostExpensiveProduct products with
      | Normal (found p) => Returned (product p)
      | Normal null => Null
      | Normal undefined => Undefined
      | Throw e => Thrown e
      end
  | call_getDayType day => Returned (text (getDayType day))
  | call_squareAsync n =>
      match Timers.await (squareAsync n) with
      | Timers.Fulfilled v => Returned (num v)
      | Timers.Rejected reason => Rejected reason
      | Timers.Pending => Unsettled
      end
  end.

(** The calls that cannot go wrong: [getMostExpensiveProduct] needs an
    element at index 0 of a non-empty array, [concatenateArrays] needs every
    array it spreads to be within the engine's bound. *)
Definition safe (c : call) : bool :=
  match c with
  | call_getMostExpensiveProduct (hole :: _) => false
  | call_concatenateArrays arrays =>
      forallb (fun item => accepts (length item)) arrays
  | _ => true
  end.

End Calls.

Arguments Returned {T} v.
Arguments perform {H H0 T} c.
Arguments safe {H0 T} c.

(** ** A host to run the examples on

    Basic Latin case mapping, and whole numbers in decimal.  The theorems
    below hold for every host; this one only serves to evaluate calls. *)

Module SampleHost.

Definition upper (u : Str.code_unit) : Str.code_unit :=
  if ((97 <=? u) && (u <=? 122))%N then (u - 32)%N else u.

Definition lower (u : Str.code_unit) : Str.code_unit :=
  if ((65 <=? u) && (u <=? 90))%N then (u + 32)%N else u.

Fixpoint digits (fuel : nat) (n : N) (acc : jsstring) : jsstring :=
  match fuel with
  | O => acc
  | S fuel' =>
      let acc' := (48 + n mod 10)%N :: acc in
      if (n <? 10)%N then acc' else digits fuel' (n / 10)%N acc'
  end.

(** The whole number [m * 2 ^ e], when it is one. *)
Definition whole_part (m : positive) (e : Z) : option N :=
  match e with
  | Zneg k =>
      if (Npos m mod 2 ^ Npos k =? 0)%N then Some (Npos m / 2 ^ Npos k)%N
      else None
  | _ => Some (Npos m * 2 ^ Z.to_N e)%N
  end.

Definition sign (s : bool) : jsstring := if s then Str.lit "-" else [].

(** Decimal digits of a whole number below [2 ^ 53], [NaN], [Infinity];
    the empty string for the finite numbers left. *)
Definition whole (x : number) : jsstring :=
  match x with
  | S754_zero _ => Str.lit "0"
  | S754_finite s m e =>
      match whole_part m e with
      | Some n =>
          if (n <? 2 ^ 53)%N
          then sign s ++ digits (S (N.to_nat (N.log2 n))) n []
          else []
      | None => []
      end
  | S754_infinity s => sign s ++ Str.lit "Infinity"
  | S754_nan => Str.lit "NaN"
  end.

#[export] Instance host : Host :=
  {| toUpperCase := map upper;
     toLowerCase := map lower;
     numberToString := whole |}.

End SampleHost.

(** An engine that takes no more than 65536 arguments in one call, and one
    that takes any number. *)
Definition bounded_engine : Engine := {| argument_limit := Some 65536%N |}.
Definition unbounded_engine : Engine := {| argument_limit := None |}.

(** ** Vocabulary of the properties *)

(** [Selection keep l l']: [l'] is [l] without the elements [keep] refuses,
    the others in their order. *)
Inductive Selection {A : Type} (keep : A -> bool) : list A -> list A -> Prop :=
| Selection_nil : Selection keep [] []
| Selection_keep x l l' :
    keep x = true -> Selection keep l l' -> Selection keep (x :: l) (x :: l')
| Selection_drop x l l' :
    keep x = false -> Selection keep l l' -> Selection keep (x :: l) l'.

Definition above_threshold (item : Rated) : bool :=
  Num.gt (rating item) Num.four.

(** [First_highest products best]: [best] stands in [products], every
    product before it is strictly cheaper, and none is dearer. *)
Definition First_highest (products : list Product) (best : Product) : Prop :=
  (exists before after,
     products = before ++ best :: after
     /\ Forall (fun p => Num.lt (price p) (price best) = true) before)
  /\ Forall (fun p => Num.ge (price best) (price p) = true) products.

Definition priced (p : Product) : Prop := Num.isNaN (price p) = false.

(** Products to run the scan on. *)
Definition nameless : Product :=
  {| name := Str.lit "unpriced"; price := Num.NaN |}.
Definition pen : Product :=
  {| name := Str.lit "Pen"; price := Num.of_Z 1 |}.
Definition ink : Product :=
  {| name := Str.lit "Ink"; price := Num.of_Z 7 |}.
Definition nib : Product :=
  {| name := Str.lit "Nib"; price := Num.of_Z 7 |}.

(** * Properties *)

(** ** The order on numbers *)

Module NumFacts.
Import Num.

Example two_is_2 : two = of_Z 2.
Proof. reflexivity. Qed.

Example four_is_4 : four = of_Z 4.
Proof. reflexivity. Qed.

(** The comparisons of [SpecFloat] are written with the core library's
    [compare]; these tactics bring them to the standard library's, and split
    on their three results. *)
Ltac fold_compare :=
  repeat match goal with
  | |- context [PosDef.Pos.compare_cont Eq ?p ?q] =>
      change (PosDef.Pos.compare_cont Eq p q) with (p ?= q)%positive
  | H : context [PosDef.Pos.compare_cont Eq ?p ?q] |- _ =>
      change (PosDef.Pos.compare_cont Eq p q) with (p ?= q)%positive in H
  | |- context [IntDef.Z.compare ?p ?q] =>
      change (IntDef.Z.compare p q) with (p ?= q)%Z
  | H : context [IntDef.Z.compare ?p ?q] |- _ =>
      change (IntDef.Z.compare p q) with (p ?= q)%Z in H
  end.

Ltac order_cases :=
  fold_compare;
  repeat match goal with
  | H : context [(?x ?= ?y)%Z] |- _ =>
      let E := fresh "E" in
      destruct (Z.compare_spec x y) as [E|E|E]; try subst
  | |- context [(?x ?= ?y)%Z] =>
      let E := fresh "E" in
      destruct (Z.compare_spec x y) as [E|E|E]; try subst
  | H : context [(?x ?= ?y)%positive] |- _ =>
      let E := fresh "E" in
      destruct (Pos.compare_spec x y) as [E|E|E]; try subst
  | |- context [(?x ?= ?y)%positive] =>
      let E := fresh "E" in
      destruct (Pos.compare_spec x y) as [E|E|E]; try subst
  end.

(** Swapping the operands of a comparison flips its result. *)
Lemma SFcompare_swap (a b : number) :
  SFcompare b a = option_map CompOpp (SFcompare a b).
Proof.
  destruct a as [sa|sa| |sa ma ea], b as [sb|sb| |sb mb eb];
    try destruct sa; try destruct sb; try reflexivity;
    simpl; fold_compare;
    rewrite (Z.compare_antisym ea eb), (Pos.compare_antisym ma mb);
    destruct (ea ?= eb)%Z; simpl; try reflexivity;
    destruct (ma ?= mb)%positive; reflexivity.
Qed.

Lemma SFcompare_refl (a : number) :
  isNaN a = false -> SFcompare a a = Some Eq.
Proof.
  destruct a as [s|s| |s m e]; simpl; intros H; try discriminate;
    try (destruct s; reflexivity).
  fold_compare. rewrite Z.compare_refl, Pos.compare_refl.
  destruct s; reflexivity.
Qed.

Lemma SFcompare_defined (a b : number) :
  isNaN a = false -> isNaN b = false -> exists c, SFcompare a b = Some c.
Proof.
  destruct a, b; simpl; intros Ha Hb; try discriminate; eexists; reflexivity.
Qed.

(** [a <= b] and [b < c] give [a < c]. *)
Lemma SFcompare_le_lt_trans (a b c : number) (o : comparison) :
  SFcompare a b = Some o -> o <> Gt ->
  SFcompare b c = Some Lt ->
  SFcompare a c = Some Lt.
Proof.
  destruct a as [sa|sa| |sa ma ea], b as [sb|sb| |sb mb eb],
           c as [sc|sc| |sc mc ec];
    try destruct sa; try destruct sb; try destruct sc;
    simpl; intros H1 Ho H2;
    try discriminate; try reflexivity;
    injection H1 as H1; subst o; try injection H2 as H2;
    try (exfalso; apply Ho; reflexivity);
    order_cases; simpl in *;
    try discriminate; try reflexivity; try lia;
    try (exfalso; apply Ho; reflexivity).
Qed.

Lemma le_not_gt (a b : number) : le a b = true -> gt a b = false.
Proof.
  unfold le, gt, SFleb, SFltb. rewrite (SFcompare_swap a b).
  destruct (SFcompare a b) as [[ | | ]|]; simpl; congruence.
Qed.

Lemma ge_not_lt (a b : number) : ge a b = true -> lt a b = false.
Proof.
  unfold ge, lt, SFleb, SFltb. rewrite (SFcompare_swap b a).
  destruct (SFcompare b a) as [[ | | ]|]; simpl; congruence.
Qed.

Lemma gt_irrefl (a : number) : gt a a = false.
Proof.
  unfold gt, SFltb. destruct (isNaN a) eqn:E.
  - destruct a; try discriminate; reflexivity.
  - now rewrite SFcompare_refl.
Qed.

Lemma ge_refl (a : number) : isNaN a = false -> ge a a = true.
Proof. intros H. unfold ge, SFleb. now rewrite SFcompare_refl. Qed.

(** Without [NaN] the order is total. *)
Lemma not_gt_ge (a b : number) :
  isNaN a = false -> isNaN b = false -> gt a b = false -> ge b a = true.
Proof.
  intros Ha Hb. unfold gt, ge, SFltb, SFleb.
  destruct (SFcompare_defined a b Ha Hb) as [c Hc].
  rewrite (SFcompare_swap a b), Hc. destruct c; simpl; congruence.
Qed.

Lemma lt_ge (a b : number) : lt a b = true -> ge b a = true.
Proof.
  unfold lt, ge, SFltb, SFleb.
  destruct (SFcompare a b) as [[ | | ]|]; congruence.
Qed.

Lemma ge_gt_trans (a b c : number) :
  ge b a = true -> gt c b = true -> lt a c = true.
Proof.
  unfold ge, gt, lt, SFleb, SFltb.
  destruct (SFcompare a b) as [o|] eqn:Hab; [|discriminate].
  destruct (SFcompare b c) as [[ | | ]|] eqn:Hbc; try discriminate.
  intros Ho _.
  rewrite (SFcompare_le_lt_trans a b c o Hab); [reflexivity| |exact Hbc].
  intros ->. discriminate.
Qed.

Lemma ge_not_NaN (a b : number) :
  ge a b = true -> isNaN a = false /\ isNaN b = false.
Proof. destruct a, b; simpl; try discriminate; auto. Qed.

Lemma lt_not_NaN (a b : number) :
  lt a b = true -> isNaN a = false /\ isNaN b = false.
Proof. destruct a, b; simpl; try discriminate; auto. Qed.

End NumFacts.

(** ** Operations that are exact *)

Module Rounding.
Import Num.

Lemma digits2_log2 (m : positive) :
  Zpos (digits2_pos m) = (Z.log2 (Zpos m) + 1)%Z.
Proof.
  assert (S : forall p, digits2_pos p = Pos.size p)
    by (induction p; simpl; congruence).
  rewrite S. destruct m; simpl; lia.
Qed.

Lemma iter_xO_Z (q : positive) (k : nat) :
  Zpos (Nat.iter k xO q) = (Zpos q * 2 ^ Z.of_nat k)%Z.
Proof.
  induction k as [|k IH].
  - simpl. lia.
  - rewrite Nat.iter_succ, Pos2Z.inj_xO, IH, Nat2Z.inj_succ, Z.pow_succ_r; lia.
Qed.

Lemma digits_iter_xO (q : positive) (k : nat) :
  Zpos (digits2_pos (Nat.iter k xO q)) = (Zpos (digits2_pos q) + Z.of_nat k)%Z.
Proof.
  induction k as [|k IH].
  - simpl. lia.
  - rewrite Nat.iter_succ. simpl digits2_pos. lia.
Qed.

Lemma iter_pos_nat {A : Type} (f : A -> A) (p : positive) (x : A) :
  iter_pos f p x = Nat.iter (Pos.to_nat p) f x.
Proof.
  revert x. induction p as [p IH|p IH|]; intros x; simpl iter_pos.
  - rewrite !IH, Pos2Nat.inj_xI, Nat.iter_succ_r.
    replace (2 * Pos.to_nat p)%nat with (Pos.to_nat p + Pos.to_nat p)%nat by lia.
    now rewrite Nat.iter_add.
  - rewrite !IH, Pos2Nat.inj_xO.
    replace (2 * Pos.to_nat p)%nat with (Pos.to_nat p + Pos.to_nat p)%nat by lia.
    now rewrite Nat.iter_add.
  - reflexivity.
Qed.

Lemma shr_zero_bits (q : positive) (k : nat) :
  Nat.iter k shr_1 (Build_shr_record (Zpos (Nat.iter k xO q)) false false)
  = Build_shr_record (Zpos q) false false.
Proof.
  induction k as [|k IH]; [reflexivity|].
  rewrite Nat.iter_succ_r.
  change (Nat.iter (S k) xO q) with (xO (Nat.iter k xO q)). exact IH.
Qed.

Lemma shr_exact (q : positive) (k : nat) (e : Z) :
  shr (Build_shr_record (Zpos (Nat.iter k xO q)) false false) e (Z.of_nat k)
  = (Build_shr_record (Zpos q) false false, (e + Z.of_nat k)%Z).
Proof.
  destruct k as [|k].
  - simpl. f_equal. lia.
  - change (Z.of_nat (S k)) with (Zpos (Pos.of_succ_nat k)).
    unfold shr.
    now rewrite iter_pos_nat, SuccNat2Pos.id_succ, shr_zero_bits.
Qed.

Lemma fexp_eq (x : Z) : fexp prec emax x = Z.max (x - 53) (-1074).
Proof. reflexivity. Qed.

Lemma shr_fexp_eq (m e : Z) (l : location) :
  shr_fexp prec emax m e l
  = shr (shr_record_of_loc m l) e (Z.max (Zdigits2 m + e - 53) (-1074) - e).
Proof. reflexivity. Qed.

Lemma binary_round_aux_eq (s : bool) (m e : Z) (l : location) :
  binary_round_aux prec emax s m e l
  = let '(mrs', e') := shr_fexp prec emax m e l in
    let '(mrs'', e'') :=
      shr_fexp prec emax
        (round_nearest_even (shr_m mrs') (loc_of_shr_record mrs')) e' loc_Exact in
    match shr_m mrs'' with
    | Z0 => S754_zero s
    | Zpos m => if (e'' <=? 971)%Z then S754_finite s m e'' else S754_infinity s
    | _ => S754_nan
    end.
Proof. reflexivity. Qed.

(** Rounding a mantissa whose [k] low bits are zero, when the format asks
    to drop exactly these, drops them and changes nothing else. *)
Lemma round_exact (s : bool) (q : positive) (k : nat) (e : Z) :
  Z.max (Zpos (digits2_pos q) + Z.of_nat k + e - 53) (-1074)
  = (e + Z.of_nat k)%Z ->
  binary_round_aux prec emax s (Zpos (Nat.iter k xO q)) e loc_Exact
  = if (e + Z.of_nat k <=? 971)%Z
    then S754_finite s q (e + Z.of_nat k)
    else S754_infinity s.
Proof.
  intros Hf.
  rewrite binary_round_aux_eq, shr_fexp_eq.
  unfold Zdigits2. rewrite digits_iter_xO, Hf.
  replace (e + Z.of_nat k - e)%Z with (Z.of_nat k) by lia.
  unfold shr_record_of_loc. rewrite shr_exact.
  cbn [shr_m loc_of_shr_record round_nearest_even].
  rewrite shr_fexp_eq. unfold Zdigits2.
  replace (Zpos (digits2_pos q) + (e + Z.of_nat k) - 53)%Z
    with (Zpos (digits2_pos q) + Z.of_nat k + e - 53)%Z by lia.
  rewrite Hf, Z.sub_diag. reflexivity.
Qed.

Lemma bounded_eq (m : positive) (e : Z) :
  bounded prec emax m e
  = ((Z.max (Zpos (digits2_pos m) + e - 53) (-1074) =? e)%Z && (e <=? 971)%Z).
Proof. reflexivity. Qed.

Lemma mul_eq (s : bool) (m : positive) (e : Z) (s' : bool) (m' : positive) (e' : Z) :
  mul (S754_finite s m e) (S754_finite s' m' e')
  = binary_round_aux prec emax (xorb s s') (Zpos (m * m')) (e + e') loc_Exact.
Proof. reflexivity. Qed.

(** Doubling a finite number: a normal one gains one in the exponent, a
    subnormal one doubles its mantissa, the largest binade overflows. *)
Lemma mul_two_finite (s : bool) (m : positive) (e : Z) :
  bounded prec emax m e = true ->
  mul (S754_finite s m e) two
  = if (Zpos (digits2_pos m) =? 53)%Z
    then if (e + 1 <=? 971)%Z then S754_finite s m (e + 1) else S754_infinity s
    else S754_finite s (xO m) e.
Proof.
  rewrite bounded_eq, andb_true_iff, Z.eqb_eq, Z.leb_le. intros [Hc He].
  unfold two. rewrite mul_eq, xorb_false_r, Pos.mul_comm.
  destruct (Z.eqb_spec (Zpos (digits2_pos m)) 53) as [Hd|Hd].
  - change (4503599627370496 * m)%positive with (Nat.iter 52 xO m).
    rewrite round_exact by lia.
    replace (e + -51 + Z.of_nat 52)%Z with (e + 1)%Z by lia. reflexivity.
  - change (4503599627370496 * m)%positive with (Nat.iter 51 xO (xO m)).
    rewrite round_exact by (simpl digits2_pos; lia).
    replace (e + -51 + Z.of_nat 51)%Z with e by lia.
    destruct (Z.leb_spec e 971); [reflexivity|lia].
Qed.

Lemma digits_lower (m : positive) :
  (2 ^ (Zpos (digits2_pos m) - 1) <= Zpos m)%Z.
Proof.
  rewrite digits2_log2. replace (Z.log2 (Zpos m) + 1 - 1)%Z with (Z.log2 (Zpos m)) by lia.
  apply Z.log2_spec. lia.
Qed.

(** In steps of [2 ^ -1074], doubling doubles: [n * 2] is exactly twice
    [n] as long as [|n| < 2 ^ 1023]. *)
Lemma mul_two_steps (n : number) (k : Z) :
  well_formed n ->
  steps n = Some k ->
  (Z.abs k < 2 ^ 2097)%Z ->
  steps (mul n two) = Some (2 * k)%Z.
Proof.
  unfold well_formed.
  destruct n as [s|s| |s m e]; simpl valid_binary; intros Hv Hk Hsmall;
    try discriminate.
  - injection Hk as <-. reflexivity.
  - cbn [steps] in Hk. injection Hk as <-.
    rewrite (mul_two_finite s m e Hv).
    rewrite bounded_eq, andb_true_iff, Z.eqb_eq, Z.leb_le in Hv.
    destruct Hv as [Hc He].
    destruct (Z.eqb_spec (Zpos (digits2_pos m)) 53) as [Hd|Hd].
    + destruct (Z.leb_spec (e + 1) 971) as [Hle|Hgt].
      * cbn [steps]. f_equal.
        replace (e + 1 + 1074)%Z with (Z.succ (e + 1074)) by lia.
        rewrite Z.pow_succ_r by lia. destruct s; ring.
      * exfalso. assert (e = 971%Z) by lia. subst e.
        pose proof (digits_lower m) as Hm. rewrite Hd in Hm.
        change (2 ^ (53 - 1))%Z with 4503599627370496%Z in Hm.
        rewrite Z.abs_mul in Hsmall.
        destruct s; lia.
    + cbn [steps]. f_equal. destruct s; lia.
Qed.

Lemma round_fixed (s : bool) (q : positive) (e : Z) :
  Z.max (Zpos (digits2_pos q) + e - 53) (-1074) = e ->
  (e <= 971)%Z ->
  binary_round_aux prec emax s (Zpos q) e loc_Exact = S754_finite s q e.
Proof.
  intros Hf He. pose proof (round_exact s q 0 e) as R.
  simpl Nat.iter in R. simpl Z.of_nat in R. rewrite !Z.add_0_r in R.
  rewrite (R Hf). destruct (Z.leb_spec e 971); [reflexivity|lia].
Qed.

Lemma binary_round_eq (s : bool) (m : positive) (e : Z) :
  binary_round prec emax s m e
  = let '(mz, ez) :=
      shl_align m e (Z.max (Zpos (digits2_pos m) + e - 53) (-1074)) in
    binary_round_aux prec emax s (Zpos mz) ez loc_Exact.
Proof. reflexivity. Qed.

Lemma shl_align_eq (m : positive) (e e' : Z) :
  shl_align m e e'
  = match (e' - e)%Z with
    | Zneg d => (Pos.iter xO m d, e')
    | _ => (m, e)
    end.
Proof. reflexivity. Qed.

(** A whole number of at most 53 bits is stored as it is, its bits moved
    to the top of the mantissa. *)
Lemma binary_round_whole (s : bool) (p : positive) :
  (Zpos (digits2_pos p) <= 53)%Z ->
  binary_round prec emax s p 0
  = S754_finite s
      (Nat.iter (Z.to_nat (53 - Zpos (digits2_pos p))) xO p)
      (Zpos (digits2_pos p) - 53).
Proof.
  intros Hd. rewrite binary_round_eq, shl_align_eq.
  replace (Z.max (Zpos (digits2_pos p) + 0 - 53) (-1074) - 0)%Z
    with (Zpos (digits2_pos p) - 53)%Z by lia.
  destruct (Zpos (digits2_pos p) - 53)%Z as [|x|x] eqn:E; [|lia|].
  - replace (53 - Zpos (digits2_pos p))%Z with 0%Z by lia.
    simpl Nat.iter. apply round_fixed; lia.
  - replace (53 - Zpos (digits2_pos p))%Z with (Zpos x) by lia.
    rewrite Pos2Nat.inj_iter.
    change (nat_rect (fun _ => positive) p (fun _ => xO) (Pos.to_nat x))
      with (Nat.iter (Pos.to_nat x) xO p).
    simpl Z.to_nat.
    replace (Z.max (Zpos (digits2_pos p) + 0 - 53) (-1074))%Z with (Zneg x)
      by lia.
    apply round_fixed; [|lia].
    rewrite digits_iter_xO, positive_nat_Z. lia.
Qed.

Lemma digits_le_53 (p : positive) :
  (Zpos p < 2 ^ 53)%Z -> (Zpos (digits2_pos p) <= 53)%Z.
Proof.
  intros H. rewrite digits2_log2.
  apply Z.log2_lt_pow2 in H; lia.
Qed.

(** A whole number below [2 ^ 53] in absolute value is a number, exactly. *)
Lemma of_Z_steps (z : Z) :
  (Z.abs z < 2 ^ 53)%Z -> steps (of_Z z) = Some (z * 2 ^ 1074)%Z.
Proof.
  intros Hz. unfold of_Z, binary_normalize.
  destruct z as [|p|p]; [reflexivity| |];
    (rewrite binary_round_whole by (apply digits_le_53; exact Hz));
    pose proof (digits_le_53 p Hz) as Hd;
    cbn [steps]; f_equal; rewrite <- ?Pos2Z.opp_pos;
    rewrite iter_xO_Z, Z2Nat.id by lia;
    replace 1074%Z
      with ((53 - Zpos (digits2_pos p))
            + (Zpos (digits2_pos p) - 53 + 1074))%Z at 2 by lia;
    rewrite (Z.pow_add_r 2 (53 - Zpos (digits2_pos p))) by lia.
  - ring.
  - ring.
Qed.

Lemma whole_square (s : bool) (p : positive) :
  (Zpos (p * p) < 2 ^ 53)%Z ->
  square (binary_round prec emax s p 0) = binary_round prec emax false (p * p) 0.
Proof.
  intros Hsq.
  assert (Hpp : (Zpos p <= Zpos (p * p))%Z) by (rewrite Pos2Z.inj_mul; nia).
  pose proof (digits_le_53 (p * p) Hsq) as HD.
  assert (Hdd : (Zpos (digits2_pos p) <= Zpos (digits2_pos (p * p)))%Z).
  { rewrite !digits2_log2. pose proof (Z.log2_le_mono _ _ Hpp). lia. }
  rewrite !binary_round_whole by lia.
  unfold square. rewrite mul_eq, xorb_nilpotent.
  set (d := Zpos (digits2_pos p)) in *.
  set (D := Zpos (digits2_pos (p * p))) in *.
  set (j := Z.to_nat (53 - d)). set (j2 := Z.to_nat (53 - D)).
  assert (Hm : (Nat.iter j xO p * Nat.iter j xO p)%positive
               = Nat.iter (j + j - j2) xO (Nat.iter j2 xO (p * p)%positive)).
  { apply Pos2Z.inj. rewrite Pos2Z.inj_mul, !iter_xO_Z, Pos2Z.inj_mul.
    replace (Z.of_nat j) with (53 - d)%Z by (unfold j; lia).
    replace (Z.of_nat j2) with (53 - D)%Z by (unfold j2; lia).
    replace (Z.of_nat (j + j - j2)) with ((53 - d) + (53 - d) - (53 - D))%Z
      by (unfold j, j2; lia).
    replace (Zpos p * Zpos p * 2 ^ (53 - D) * 2 ^ (53 - d + (53 - d) - (53 - D)))%Z
      with (Zpos p * Zpos p * (2 ^ (53 - D) * 2 ^ (53 - d + (53 - d) - (53 - D))))%Z
      by ring.
    rewrite <- Z.pow_add_r by lia.
    replace (53 - D + (53 - d + (53 - d) - (53 - D)))%Z
      with ((53 - d) + (53 - d))%Z by lia.
    rewrite Z.pow_add_r by lia. ring. }
  rewrite Hm, round_exact.
  - replace (d - 53 + (d - 53) + Z.of_nat (j + j - j2))%Z with (D - 53)%Z
      by (unfold j, j2; lia).
    destruct (Z.leb_spec (D - 53) 971); [reflexivity|lia].
  - rewrite digits_iter_xO. fold D. unfold j, j2. lia.
Qed.

(** The square of a whole number is the whole number it should be, as long
    as it stays below [2 ^ 53]. *)
Lemma square_of_Z (z : Z) :
  (z * z < 2 ^ 53)%Z -> square (of_Z z) = of_Z (z * z).
Proof.
  intros Hz. unfold of_Z, binary_normalize.
  destruct z as [|p|p]; [reflexivity| |]; simpl Z.mul;
    apply whole_square; exact Hz.
Qed.

End Rounding.

(** ** [filterByRating] *)

Lemma Selection_filter {A : Type} (keep : A -> bool) (l : list A) :
  Selection keep l (filter keep l).
Proof.
  induction l as [|x l IH]; simpl.
  - constructor.
  - destruct (keep x) eqn:E; constructor; assumption.
Qed.

(** A selection is determined by the list and the test. *)
Lemma Selection_unique {A : Type} (keep : A -> bool) (l l1 l2 : list A) :
  Selection keep l l1 -> Selection keep l l2 -> l1 = l2.
Proof.
  intros S1. revert l2.
  induction S1 as [|x l l1 Hx S1 IH|x l l1 Hx S1 IH]; intros l2 S2;
    inversion S2; subst; try congruence.
  - f_equal. now apply IH.
  - now apply IH.
Qed.

(** C4: [filterByRating] returns the records rated strictly above 4, all of
    them and only them, in the order of the input; a record rated [<= 4] is
    never in the result. *)
Theorem filterByRating_spec (items : list Rated) :
  Selection above_threshold items (filterByRating items)
  /\ (forall kept, Selection above_threshold items kept ->
                   kept = filterByRating items)
  /\ (forall item, In item (filterByRating items) <->
                   In item items /\ Num.gt (rating item) Num.four = true)
  /\ (forall item, Num.le (rating item) Num.four = true ->
                   ~ In item (filterByRating items)).
Proof.
  assert (S : Selection above_threshold items (filterByRating items))
    by apply Selection_filter.
  split; [exact S|]. split; [|split].
  - intros kept K. exact (Selection_unique _ _ _ _ K S).
  - intros item. unfold filterByRating. apply filter_In.
  - intros item Hle Hin. unfold filterByRating in Hin.
    apply filter_In in Hin. destruct Hin as [_ Hgt].
    rewrite (NumFacts.le_not_gt _ _ Hle) in Hgt. discriminate.
Qed.

Example filterByRating_run :
  let book (t : string) r := {| title := Str.lit t; rating := r |} in
  filterByRating
    [book "A"%string (Num.of_Z 5); book "B"%string Num.four; book "C"%string Num.NaN;
     book "D"%string Num.Infinity; book "E"%string (Num.of_Z 3); book "F"%string (Num.of_Z 5)]
  = [book "A"%string (Num.of_Z 5); book "D"%string Num.Infinity; book "F"%string (Num.of_Z 5)].
Proof. reflexivity. Qed.

(** ** [concatenateArrays] *)

Lemma fold_push {T : Type} (arrays : list (list T)) (items : list T) :
  fold_left (fun items item => push items item) arrays items
  = items ++ concat arrays.
Proof.
  revert items.
  induction arrays as [|item arrays IH]; intros items; simpl.
  - now rewrite app_nil_r.
  - rewrite IH. unfold push. now rewrite app_assoc.
Qed.

Lemma length_concat_sum {T : Type} (arrays : list (list T)) :
  length (concat arrays) = list_sum (map (@length T) arrays).
Proof.
  induction arrays as [|item arrays IH]; simpl.
  - reflexivity.
  - now rewrite length_app, IH.
Qed.

Lemma concatenateArrays_concat {T : Type} (arrays : list (list T)) :
  concatenateArrays arrays = concat arrays.
Proof. unfold concatenateArrays. now rewrite fold_push. Qed.

(** C5: the result holds the elements of the first array, then those of the
    second, and so on, each array in its own order, and is as long as the
    inputs together. *)
Theorem concatenateArrays_spec {T : Type} (arrays : list (list T)) :
  concatenateArrays arrays = concat arrays
  /\ length (concatenateArrays arrays) = list_sum (map (@length T) arrays).
Proof.
  split; [apply concatenateArrays_concat|].
  rewrite concatenateArrays_concat. apply length_concat_sum.
Qed.

(** X6: the element at a position of the result: the elements of one input
    array stand in the result in their order, right after all the elements
    of the arrays before it. *)
Lemma concatenateArrays_nth {T : Type} (before : list (list T))
      (xs : list T) (after : list (list T)) (i : nat) :
  i < length xs ->
  nth_error (concatenateArrays (before ++ xs :: after))
            (length (concatenateArrays before) + i)
  = nth_error xs i.
Proof.
  intros Hi.
  rewrite !concatenateArrays_concat.
  rewrite concat_app. simpl.
  rewrite nth_error_app2 by lia.
  replace (length (concat before) + i - length (concat before)) with i by lia.
  now rewrite nth_error_app1.
Qed.

(** C10: no array gives the empty array, one array gives its elements. *)
Theorem concatenateArrays_unit {T : Type} :
  concatenateArrays (@nil (list T)) = []
  /\ forall xs : list T, concatenateArrays [xs] = xs.
Proof.
  split; [reflexivity|]. intros xs. reflexivity.
Qed.

Example concatenateArrays_run :
  concatenateArrays [[1; 2]; []; [3]; [2; 1]] = [1; 2; 3; 2; 1].
Proof. reflexivity. Qed.

(** ** [getMostExpensiveProduct] *)

Lemma higher_self (p : Product) : higher p p = p.
Proof. unfold higher. now rewrite NumFacts.gt_irrefl. Qed.

Lemma First_highest_single (p : Product) : priced p -> First_highest [p] p.
Proof.
  intros Hp. split.
  - exists [], []. split; [reflexivity|constructor].
  - constructor; [|constructor]. now apply NumFacts.ge_refl.
Qed.

(** One more product keeps the invariant of the scan. *)
Lemma First_highest_step (seen : list Product) (best p : Product) :
  priced p -> First_highest seen best ->
  First_highest (seen ++ [p]) (higher best p).
Proof.
  intros Hp [(before & after & Hsplit & Hbefore) Hmax].
  assert (Hbest : priced best).
  { rewrite Forall_forall in Hmax.
    apply (NumFacts.ge_not_NaN (price best) (price best)).
    apply Hmax. rewrite Hsplit. apply in_elt. }
  unfold higher. destruct (Num.gt (price p) (price best)) eqn:Hgt.
  - assert (Hlt : Forall (fun q => Num.lt (price q) (price p) = true) seen).
    { eapply Forall_impl; [|exact Hmax]. simpl. intros q Hq.
      exact (NumFacts.ge_gt_trans _ _ _ Hq Hgt). }
    split.
    + exists seen, []. split; [reflexivity|exact Hlt].
    + apply Forall_app. split.
      * eapply Forall_impl; [|exact Hlt]. simpl. intros q.
        apply NumFacts.lt_ge.
      * constructor; [|constructor]. now apply NumFacts.ge_refl.
  - split.
    + exists before, (after ++ [p]). split; [|exact Hbefore].
      rewrite Hsplit, <- app_assoc. reflexivity.
    + apply Forall_app. split; [exact Hmax|].
      constructor; [|constructor]. now apply NumFacts.not_gt_ge.
Qed.

Lemma First_highest_scan (rest seen : list Product) (best : Product) :
  Forall priced rest -> First_highest seen best ->
  First_highest (seen ++ rest) (fold_left higher rest best).
Proof.
  revert seen best.
  induction rest as [|p rest IH]; intros seen best Hrest Hinv; simpl.
  - now rewrite app_nil_r.
  - inversion Hrest as [|? ? Hp Hrest']; subst.
    replace (seen ++ p :: rest) with ((seen ++ [p]) ++ rest)
      by (rewrite <- app_assoc; reflexivity).
    apply IH; [assumption|]. now apply First_highest_step.
Qed.

(** C2, as the code has it: when no price is [NaN], the product returned
    for a non-empty list has a price [>=] every price of the list, and
    every product before it is strictly cheaper, so that among several
    products of the highest price it is the first. *)
Theorem getMostExpensiveProduct_highest (products : list Product) :
  products <> [] ->
  Forall priced products ->
  exists best,
    getMostExpensiveProduct products = Some best
    /\ First_highest products best.
Proof.
  intros Hne Hpriced. destruct products as [|first rest]; [congruence|].
  exists (fold_left higher (first :: rest) first). split; [reflexivity|].
  simpl. rewrite higher_self.
  inversion Hpriced as [|? ? Hfirst Hrest]; subst.
  change (first :: rest) with ([first] ++ rest).
  apply First_highest_scan; [assumption|].
  now apply First_highest_single.
Qed.

Lemma getMostExpensiveProduct_highest_witness :
  [pen; ink; nib] <> []
  /\ Forall priced [pen; ink; nib]
  /\ exists best,
       getMostExpensiveProduct [pen; ink; nib] = Some best
       /\ First_highest [pen; ink; nib] best.
Proof.
  assert (Hne : [pen; ink; nib] <> []) by discriminate.
  assert (Hp : Forall priced [pen; ink; nib])
    by (repeat constructor).
  split; [exact Hne|]. split; [exact Hp|].
  exact (getMostExpensiveProduct_highest _ Hne Hp).
Defined.

Example getMostExpensiveProduct_run :
  getMostExpensiveProduct [pen; ink; nib; pen] = Some ink.
Proof. reflexivity. Qed.

(** C2 as it is worded fails on a price that is [NaN]: the scan keeps the
    first product, whose price is not [>=] the price of the second. *)
Lemma getMostExpensiveProduct_NaN :
  [nameless; pen] <> []
  /\ getMostExpensiveProduct [nameless; pen] = Some nameless
  /\ Num.ge (price nameless) (price pen) = false
  /\ ~ (exists best,
          getMostExpensiveProduct [nameless; pen] = Some best
          /\ First_highest [nameless; pen] best).
Proof.
  split; [discriminate|]. split; [reflexivity|]. split; [reflexivity|].
  intros (best & Hbest & _ & Hmax).
  injection Hbest as <-.
  inversion Hmax as [|? ? _ Hrest]; subst.
  inversion Hrest as [|? ? Hpen _]; subst.
  discriminate Hpen.
Qed.

(** C3: [null] is the answer for the empty list and for no other. *)
Theorem getMostExpensiveProduct_null (products : list Product) :
  getMostExpensiveProduct [] = None
  /\ (getMostExpensiveProduct products = None <-> products = []).
Proof.
  split; [reflexivity|].
  destruct products; simpl; split; intros; congruence.
Qed.

(** ** [formatString] *)

(** C6: with the flag [true] the result is the upper-case form, with
    [false] the lower-case form, and a call without the flag is a call with
    [true]. *)
Theorem formatString_spec `{Host} (s : jsstring) :
  formatString s (Some true) = toUpperCase s
  /\ formatString s (Some false) = toLowerCase s
  /\ formatString s None = formatString s (Some true).
Proof. repeat split. Qed.

Example formatString_run :
  let host := SampleHost.host in
  formatString (Str.lit "Hello, World 42!") None = Str.lit "HELLO, WORLD 42!"
  /\ formatString (Str.lit "Hello, World 42!") (Some true)
     = Str.lit "HELLO, WORLD 42!"
  /\ formatString (Str.lit "Hello, World 42!") (Some false)
     = Str.lit "hello, world 42!".
Proof. repeat split. Qed.

(** ** [getDayType] *)

Lemma Day_eqb_eq (a b : Day) : Day_eqb a b = true <-> a = b.
Proof.
  unfold Day_eqb. rewrite N.eqb_eq.
  split; [|now intros ->].
  destruct a, b; simpl; intros E; try reflexivity; discriminate E.
Qed.

(** C7: the answer is "Weekend" on Saturday and on Sunday, and "Weekday"
    on the five other days. *)
Theorem getDayType_spec (day : Day) :
  (getDayType day = Str.lit "Weekend" <-> day = Saturday \/ day = Sunday)
  /\ (getDayType day = Str.lit "Weekday" <->
      day <> Saturday /\ day <> Sunday).
Proof.
  destruct day; vm_compute; intuition (discriminate || congruence).
Qed.

Example getDayType_run :
  map getDayType [Monday; Tuesday; Wednesday; Thursday; Friday; Saturday; Sunday]
  = map Str.lit ["Weekday"; "Weekday"; "Weekday"; "Weekday"; "Weekday";
                 "Weekend"; "Weekend"]%string.
Proof. reflexivity. Qed.

(** ** [squareAsync] *)

Lemma squareAsync_await (n : number) :
  Timers.await (squareAsync n)
  = if Num.lt n Num.zero
    then Timers.Rejected negative_error
    else Timers.Fulfilled (Num.square n).
Proof.
  unfold squareAsync, Timers.new_Promise, Timers.setTimeout, Timers.await.
  simpl. destruct (Num.lt n Num.zero); reflexivity.
Qed.

(** The promise is pending for a second and settled from then on. *)
Lemma squareAsync_delay (n : number) (ms : N) :
  Timers.state (Timers.advance ms (squareAsync n))
  = if (ms <? 1000)%N then Timers.Pending else Timers.await (squareAsync n).
Proof.
  unfold squareAsync, Timers.new_Promise, Timers.setTimeout, Timers.await,
    Timers.advance.
  simpl.
  destruct (N.leb_spec 1000 ms) as [Hle|Hlt];
    destruct (N.ltb_spec ms 1000) as [Hlt'|Hle']; try lia; reflexivity.
Qed.

(** For a whole [n >= 0] with [n * n < 2 ^ 53] the promise is fulfilled
    with the whole number [n * n]. *)
Lemma squareAsync_whole (z : Z) :
  (0 <= z)%Z -> (z * z < 2 ^ 53)%Z ->
  Timers.await (squareAsync (Num.of_Z z)) = Timers.Fulfilled (Num.of_Z (z * z)).
Proof.
  intros Hz Hsq. rewrite squareAsync_await, (Rounding.square_of_Z z Hsq).
  assert (Hd : (Z.abs z < 2 ^ 53)%Z) by nia.
  unfold Num.of_Z, binary_normalize.
  destruct z as [|p|p]; [reflexivity| |lia].
  rewrite (Rounding.binary_round_whole false p (Rounding.digits_le_53 p Hd)).
  reflexivity.
Qed.



(** [NaN] is not negative, and neither zero is: these are fulfilled.  The
    square of a fraction is rounded: 0.1 gives 0.010000000000000002. *)
Example squareAsync_run :
  Timers.await (squareAsync Num.NaN) = Timers.Fulfilled Num.NaN
  /\ Timers.await (squareAsync (S754_finite false 7205759403792794 (-56)))
     = Timers.Fulfilled (S754_finite false 5764607523034236 (-59))
  /\ Timers.await (squareAsync (S754_zero true)) = Timers.Fulfilled Num.zero
  /\ Timers.await (squareAsync (S754_infinity true))
     = Timers.Rejected negative_error
  /\ Timers.state (Timers.advance 999 (squareAsync (Num.of_Z 3)))
     = Timers.Pending
  /\ Timers.state (Timers.advance 1000 (squareAsync (Num.of_Z 3)))
     = Timers.Fulfilled (Num.of_Z 9).
Proof. repeat split. Qed.

(** ** [processValue] *)

(** C8: a string gives its length, a number gives itself times two.  The
    length is the count of code units, exactly; the product is exactly twice
    the number, short of overflow. *)
Theorem processValue_spec :
  (forall s : jsstring,
      processValue (a_string s) = Num.of_nat (length s))
  /\ (forall n : number,
         processValue (a_number n) = Num.mul n Num.two)
  /\ (forall s : jsstring,
         (Z.of_nat (length s) < 2 ^ 53)%Z ->
         Num.steps (processValue (a_string s))
         = Some (Z.of_nat (length s) * 2 ^ 1074)%Z)
  /\ (forall (n : number) (k : Z),
         Num.well_formed n -> Num.steps n = Some k ->
         (Z.abs k < 2 ^ 2097)%Z ->
         Num.steps (processValue (a_number n)) = Some (2 * k)%Z).
Proof.
  split; [reflexivity|]. split; [reflexivity|]. split.
  - intros s Hs. apply Rounding.of_Z_steps. lia.
  - intros n k Hn Hk Hsmall. now apply Rounding.mul_two_steps.
Qed.

Lemma processValue_spec_witness :
  (Z.of_nat (length (Str.lit "hello")) < 2 ^ 53)%Z
  /\ Num.steps (processValue (a_string (Str.lit "hello")))
     = Some (5 * 2 ^ 1074)%Z
  /\ Num.well_formed (Num.of_Z 21)
  /\ Num.steps (Num.of_Z 21) = Some (21 * 2 ^ 1074)%Z
  /\ (Z.abs (21 * 2 ^ 1074) < 2 ^ 2097)%Z
  /\ Num.steps (processValue (a_number (Num.of_Z 21)))
     = Some (2 * (21 * 2 ^ 1074))%Z.
Proof.
  assert (H1 : (Z.of_nat (length (Str.lit "hello")) < 2 ^ 53)%Z)
    by reflexivity.
  assert (H2 : Num.well_formed (Num.of_Z 21)) by reflexivity.
  assert (H3 : Num.steps (Num.of_Z 21) = Some (21 * 2 ^ 1074)%Z)
    by reflexivity.
  assert (H4 : (Z.abs (21 * 2 ^ 1074) < 2 ^ 2097)%Z) by reflexivity.
  split; [exact H1|]. split.
  - exact (proj1 (proj2 (proj2 processValue_spec)) (Str.lit "hello") H1).
  - split; [exact H2|]. split; [exact H3|]. split; [exact H4|].
    exact (proj2 (proj2 (proj2 processValue_spec)) (Num.of_Z 21) _ H2 H3 H4).
Defined.

Example processValue_run :
  processValue (a_string (Str.lit "hello")) = Num.of_Z 5
  /\ processValue (a_string []) = Num.zero
  /\ processValue (a_number (Num.of_Z 10)) = Num.of_Z 20
  /\ processValue (a_number (Num.of_Z (-4))) = Num.of_Z (-8)
  /\ processValue (a_number Num.NaN) = Num.NaN.
Proof. repeat split. Qed.

(** ** [Vehicle] and [Car] *)

Example getInfo_run :
  let host := SampleHost.host in
  let car := new_Car (Str.lit "Audi") (Num.of_Z 2019) (Str.lit "A4") in
  getInfo (super car) = Str.lit "Make: Audi, Year: 2019"
  /\ getModel car = Str.lit "Model: A4".
Proof. repeat split. Qed.

(** ** Calls on arrays with holes *)

Lemma present_dense {T : Type} (l : list T) : present (dense l) = l.
Proof.
  induction l as [|x l IH]; simpl; [reflexivity|]. now rewrite IH.
Qed.

Lemma spread_dense {T : Type} (l : list T) : spread (dense l) = map Some l.
Proof. unfold spread, dense. rewrite map_map. reflexivity. Qed.

Lemma length_spread {T : Type} (a : list (slot T)) :
  length (spread a) = length a.
Proof. apply length_map. Qed.

(** [filter] passes over the holes and keeps what [filterByRating] keeps of
    the elements present. *)
Lemma run_filterByRating_present (items : list (slot Rated)) :
  run_filterByRating items = Normal (filterByRating (present items)).
Proof.
  unfold run_filterByRating, filterByRating.
  induction items as [|[|x] items IH]; simpl; [reflexivity|exact IH|].
  rewrite IH. reflexivity.
Qed.

Section Spreads.
Context `{Engine}.
Variable T : Type.

Lemma forEach_push (arrays : list (slot (list (slot T))))
      (items : list (option T)) :
  forEach arrays (fun item items => push_spread items item) items
  = if forallb (fun item => accepts (length item)) (present arrays)
    then Normal (items ++ concat (map (@spread T) (present arrays)))
    else Throw RangeError.
Proof.
  revert items.
  induction arrays as [|[|item] arrays IH]; intros items; simpl.
  - now rewrite app_nil_r.
  - apply IH.
  - unfold push_spread at 1. rewrite length_spread.
    destruct (accepts (length item)); simpl; [|reflexivity].
    rewrite IH. now rewrite app_assoc.
Qed.

(** [concatenateArrays] throws as soon as one array is beyond the bound,
    and otherwise returns what the arrays present yield. *)
Lemma run_concatenateArrays_cases (arrays : list (list (slot T))) :
  run_concatenateArrays arrays
  = if forallb (fun item => accepts (length item)) arrays
    then Normal (concat (map (@spread T) arrays))
    else Throw RangeError.
Proof.
  unfold run_concatenateArrays. now rewrite forEach_push, present_dense.
Qed.

(** On arrays without holes and within the bound this is
    [concatenateArrays]. *)
Lemma run_concatenateArrays_dense (arrays : list (list T)) :
  forallb (fun item => accepts (length item)) arrays = true ->
  run_concatenateArrays (map dense arrays)
  = Normal (map Some (concatenateArrays arrays)).
Proof.
  intros Hok. rewrite run_concatenateArrays_cases.
  assert (E : forallb (fun item : list (slot T) => accepts (length item))
                      (map dense arrays)
              = forallb (fun item : list T => accepts (length item)) arrays).
  { clear Hok. induction arrays as [|x arrays IH]; simpl; [reflexivity|].
    unfold dense at 1. now rewrite length_map, IH. }
  rewrite E, Hok, concatenateArrays_concat, concat_map, map_map. f_equal.
  f_equal. apply map_ext. intros l. apply spread_dense.
Qed.

End Spreads.

Lemma scan_defined (product best : Product) :
  scan product (Some best) = Normal (Some (higher best product)).
Proof.
  unfold scan, higher. simpl.
  destruct (Num.gt (price product) (price best)); reflexivity.
Qed.

(** Once the variable holds a product the scan cannot throw. *)
Lemma forEach_scan_defined (products : list (slot Product)) (best : Product) :
  forEach products scan (Some best)
  = Normal (Some (fold_left higher (present products) best)).
Proof.
  revert best.
  induction products as [|[|p] products IH]; intros best;
    cbn [forEach present fold_left].
  - reflexivity.
  - apply IH.
  - rewrite scan_defined. cbn [bind]. apply IH.
Qed.

(** While it holds [undefined] the first element met makes it throw. *)
Lemma forEach_scan_undefined (products : list (slot Product)) :
  forEach products scan None
  = match present products with
    | [] => Normal None
    | _ :: _ => Throw TypeError
    end.
Proof.
  induction products as [|[|p] products IH]; simpl;
    [reflexivity|exact IH|reflexivity].
Qed.

Lemma run_getMostExpensiveProduct_cases (products : list (slot Product)) :
  run_getMostExpensiveProduct products
  = match products with
    | [] => Normal null
    | elem first :: rest =>
        Normal (found (fold_left higher (first :: present rest) first))
    | hole :: rest =>
        match present rest with
        | [] => Normal undefined
        | _ :: _ => Throw TypeError
        end
    end.
Proof.
  destruct products as [|[|first] rest]; [reflexivity| |].
  - unfold run_getMostExpensiveProduct. simpl length. simpl Nat.eqb.
    unfold at_index. simpl nth_error. cbv iota.
    rewrite forEach_scan_undefined. simpl present.
    destruct (present rest); reflexivity.
  - unfold run_getMostExpensiveProduct. simpl length. simpl Nat.eqb.
    unfold at_index. simpl nth_error. cbv iota.
    rewrite forEach_scan_defined. reflexivity.
Qed.

(** On an array without holes this is [getMostExpensiveProduct]. *)
Lemma run_getMostExpensiveProduct_dense (products : list Product) :
  run_getMostExpensiveProduct (dense products)
  = Normal match getMostExpensiveProduct products with
           | Some p => found p
           | None => null
           end.
Proof.
  rewrite run_getMostExpensiveProduct_cases.
  destruct products as [|first rest]; [reflexivity|].
  change (dense (first :: rest)) with (elem first :: dense rest).
  cbv iota. now rewrite present_dense.
Qed.




(** * Further properties *)

(** ** [filterByRating], again *)

Lemma filter_fixed {A : Type} (keep : A -> bool) (l : list A) :
  filter keep l = l <-> Forall (fun x => keep x = true) l.
Proof.
  induction l as [|x l IH]; simpl.
  - split; [constructor|reflexivity].
  - destruct (keep x) eqn:E; split.
    + intros H. injection H as H. constructor; [exact E|now apply IH].
    + intros H. inversion H; subst. f_equal. now apply IH.
    + intros H. pose proof (filter_length_le keep l) as L.
      rewrite H in L. simpl in L. lia.
    + intros H. inversion H; subst. congruence.
Qed.

(** X1: filtering a second time changes nothing: every record of a result
    is rated above 4, so the result is its own filtering. *)
Theorem filterByRating_idempotent (items : list Rated) :
  filterByRating (filterByRating items) = filterByRating items.
Proof.
  unfold filterByRating. apply filter_fixed.
  apply Forall_forall. intros item Hin.
  apply filter_In in Hin. exact (proj2 Hin).
Qed.

(** X2: the result is never longer than the input, and it is the input
    itself exactly when every record is rated above 4 (so one record rated
    4, less, or [NaN] makes it strictly shorter). *)
Theorem filterByRating_keeps_all (items : list Rated) :
  length (filterByRating items) <= length items
  /\ (filterByRating items = items <->
      Forall (fun item => Num.gt (rating item) Num.four = true) items)
  /\ (length (filterByRating items) = length items <->
      filterByRating items = items).
Proof.
  unfold filterByRating. split; [apply filter_length_le|]. split.
  - apply filter_fixed.
  - split; [|now intros ->].
    intros L. apply filter_fixed. apply filter_length_forallb in L.
    rewrite forallb_forall in L. now apply Forall_forall.
Qed.

(** X3: filtering commutes with concatenation: the records above 4 of the
    concatenated arrays are the concatenation of each array's records
    above 4. *)
Theorem filterByRating_concatenateArrays (arrays : list (list Rated)) :
  filterByRating (concatenateArrays arrays)
  = concatenateArrays (map filterByRating arrays).
Proof.
  rewrite !concatenateArrays_concat. unfold filterByRating.
  symmetry. apply concat_filter_map.
Qed.

(** ** [concatenateArrays], again *)

Lemma concat_map_concat {T : Type} (groups : list (list (list T))) :
  concat (map (@concat T) groups) = concat (concat groups).
Proof.
  induction groups as [|g groups IH]; simpl.
  - reflexivity.
  - now rewrite concat_app, IH.
Qed.

(** X4: concatenating group by group and then concatenating the results
    gives what concatenating all the arrays at once gives; in particular
    the arrays of two argument lists put one after the other give the two
    results one after the other. *)
Theorem concatenateArrays_groups {T : Type} (groups : list (list (list T))) :
  concatenateArrays (map concatenateArrays groups)
  = concatenateArrays (concat groups)
  /\ forall a b : list (list T),
       concatenateArrays (a ++ b) = concatenateArrays a ++ concatenateArrays b.
Proof.
  split.
  - rewrite !concatenateArrays_concat.
    rewrite <- concat_map_concat. f_equal.
    apply map_ext. intros g. apply concatenateArrays_concat.
  - intros a b. rewrite !concatenateArrays_concat. apply concat_app.
Qed.

(** X5: the result holds the elements of the input arrays and nothing
    else, and it is empty exactly when every input array is. *)
Theorem concatenateArrays_elements {T : Type} (arrays : list (list T)) :
  (forall x, In x (concatenateArrays arrays) <->
             exists xs, In xs arrays /\ In x xs)
  /\ (concatenateArrays arrays = [] <-> Forall (fun xs => xs = []) arrays).
Proof.
  rewrite concatenateArrays_concat. split.
  - intros x. apply in_concat.
  - apply concat_nil_Forall.
Qed.

Lemma concatenateArrays_nth_witness :
  2 < length [7; 8; 9]
  /\ nth_error (concatenateArrays ([[1; 2]; []] ++ [7; 8; 9] :: [[4]]))
               (length (concatenateArrays [[1; 2]; []]) + 2)
     = nth_error [7; 8; 9] 2.
Proof.
  assert (H : 2 < length [7; 8; 9]) by (simpl; lia).
  split; [exact H|].
  exact (concatenateArrays_nth [[1; 2]; []] [7; 8; 9] [[4]] 2 H).
Defined.

(** ** [getMostExpensiveProduct], again *)

Lemma lt_trans (a b c : number) :
  Num.lt a b = true -> Num.lt b c = true -> Num.lt a c = true.
Proof.
  unfold Num.lt, SFltb.
  destruct (SFcompare a b) as [[ | | ]|] eqn:Hab; try discriminate.
  destruct (SFcompare b c) as [[ | | ]|] eqn:Hbc; try discriminate.
  intros _ _.
  rewrite (NumFacts.SFcompare_le_lt_trans a b c Lt Hab); [reflexivity| |exact Hbc].
  discriminate.
Qed.

Lemma gt_NaN (a b : number) : Num.isNaN b = true -> Num.gt a b = false.
Proof. destruct b; try discriminate. reflexivity. Qed.

Lemma higher_cases (best p : Product) :
  (Num.gt (price p) (price best) = true /\ higher best p = p)
  \/ (Num.gt (price p) (price best) = false /\ higher best p = best).
Proof.
  unfold higher. destruct (Num.gt (price p) (price best)); auto.
Qed.

Lemma fold_higher_In (rest : list Product) (best : Product) :
  In (fold_left higher rest best) (best :: rest).
Proof.
  revert best. induction rest as [|p rest IH]; intros best; simpl.
  - now left.
  - destruct (higher_cases best p) as [[_ ->]|[_ ->]].
    + right. apply IH.
    + destruct (IH best) as [E|E]; [now left|now right; right].
Qed.

Lemma fold_higher_unbeaten (rest seen : list Product) (best : Product) :
  Forall (fun p => Num.gt (price p) (price best) = false) seen ->
  Forall (fun p => Num.gt (price p) (price (fold_left higher rest best)) = false)
         (seen ++ rest).
Proof.
  revert seen best.
  induction rest as [|p rest IH]; intros seen best Hseen; simpl.
  - now rewrite app_nil_r.
  - replace (seen ++ p :: rest) with ((seen ++ [p]) ++ rest)
      by (rewrite <- app_assoc; reflexivity).
    apply IH. apply Forall_app.
    destruct (higher_cases best p) as [[Hgt ->]|[Hgt ->]]; split.
    + eapply Forall_impl; [|exact Hseen]. simpl. intros q Hq.
      destruct (Num.gt (price q) (price p)) eqn:Hqp; [|reflexivity].
      rewrite <- Hq. symmetry.
      exact (lt_trans (price best) (price p) (price q) Hgt Hqp).
    + constructor; [apply NumFacts.gt_irrefl|constructor].
    + exact Hseen.
    + constructor; [exact Hgt|constructor].
Qed.

Lemma scan_member (products : list Product) (best : Product) :
  getMostExpensiveProduct products = Some best -> In best products.
Proof.
  destruct products as [|first rest]; [discriminate|].
  unfold getMostExpensiveProduct. intros E. injection E as <-.
  simpl. rewrite higher_self. apply fold_higher_In.
Qed.

Lemma scan_unbeaten (products : list Product) (best : Product) :
  getMostExpensiveProduct products = Some best ->
  Forall (fun p => Num.gt (price p) (price best) = false) products.
Proof.
  destruct products as [|first rest]; [discriminate|].
  unfold getMostExpensiveProduct. intros E. injection E as <-.
  apply (fold_higher_unbeaten (first :: rest) [] first). constructor.
Qed.

(** X7: whatever the prices, [NaN] included, the product returned is one of
    the list, and no product of the list has a price [>] its price. *)
Theorem getMostExpensiveProduct_unbeaten (products : list Product)
        (best : Product) :
  getMostExpensiveProduct products = Some best ->
  In best products
  /\ Forall (fun p => Num.gt (price p) (price best) = false) products.
Proof.
  intros E. split.
  - exact (scan_member products best E).
  - exact (scan_unbeaten products best E).
Qed.

Lemma getMostExpensiveProduct_unbeaten_witness :
  getMostExpensiveProduct [pen; nameless; ink; nib] = Some ink
  /\ In ink [pen; nameless; ink; nib]
  /\ Forall (fun p => Num.gt (price p) (price ink) = false)
            [pen; nameless; ink; nib].
Proof.
  assert (E : getMostExpensiveProduct [pen; nameless; ink; nib] = Some ink)
    by reflexivity.
  split; [exact E|].
  exact (getMostExpensiveProduct_unbeaten [pen; nameless; ink; nib] ink E).
Defined.

Lemma fold_higher_NaN (rest : list Product) (first : Product) :
  Num.isNaN (price first) = true -> fold_left higher rest first = first.
Proof.
  intros Hnan. induction rest as [|p rest IH]; simpl; [reflexivity|].
  unfold higher at 2. now rewrite (gt_NaN (price p) (price first) Hnan).
Qed.

Lemma fold_higher_priced (rest : list Product) (best : Product) :
  fold_left higher rest best = best
  \/ Num.isNaN (price (fold_left higher rest best)) = false.
Proof.
  revert best. induction rest as [|p rest IH]; intros best; simpl.
  - now left.
  - destruct (higher_cases best p) as [[Hgt ->]|[_ ->]]; [|apply IH].
    right. destruct (IH p) as [->|E]; [|exact E].
    exact (proj2 (NumFacts.lt_not_NaN _ _ Hgt)).
Qed.

(** X8: a first product whose price is [NaN] is returned whatever follows
    it, and it is the only way to a result whose price is [NaN]: a product
    priced [NaN] further down the list is never returned. *)
Theorem getMostExpensiveProduct_NaN_first (first : Product)
        (rest : list Product) :
  (Num.isNaN (price first) = true ->
   getMostExpensiveProduct (first :: rest) = Some first)
  /\ (forall best,
         getMostExpensiveProduct (first :: rest) = Some best ->
         Num.isNaN (price best) = true ->
         best = first /\ Num.isNaN (price first) = true).
Proof.
  unfold getMostExpensiveProduct. simpl. rewrite higher_self. split.
  - intros Hnan. now rewrite fold_higher_NaN.
  - intros best E Hnan. injection E as <-.
    destruct (fold_higher_priced rest first) as [E|E].
    + rewrite E in *. now split.
    + congruence.
Qed.

Lemma getMostExpensiveProduct_NaN_first_witness :
  Num.isNaN (price nameless) = true
  /\ getMostExpensiveProduct (nameless :: [ink; pen]) = Some nameless.
Proof.
  assert (H : Num.isNaN (price nameless) = true) by reflexivity.
  split; [exact H|].
  exact (proj1 (getMostExpensiveProduct_NaN_first nameless [ink; pen]) H).
Defined.

Lemma higher_priced (a b : Product) :
  priced a -> priced b -> priced (higher a b).
Proof.
  intros Ha Hb. destruct (higher_cases a b) as [[_ ->]|[_ ->]]; assumption.
Qed.

(** [higher] is a maximum that keeps its left operand on a tie: taking it
    in two steps groups either way. *)
Lemma higher_assoc (a b c : Product) :
  priced a -> priced b ->
  higher (higher a b) c = higher a (higher b c).
Proof.
  intros Ha Hb.
  destruct (higher_cases a b) as [[Hab Eab]|[Hab Eab]];
    destruct (higher_cases b c) as [[Hbc Ebc]|[Hbc Ebc]];
    rewrite Eab, Ebc.
  - assert (Hac : Num.gt (price c) (price a) = true)
      by exact (lt_trans (price a) (price b) (price c) Hab Hbc).
    unfold higher. now rewrite Hac.
  - now rewrite Eab.
  - reflexivity.
  - rewrite Eab. unfold higher.
    destruct (Num.gt (price c) (price a)) eqn:Hca; [|reflexivity].
    pose proof (NumFacts.not_gt_ge (price b) (price a) Hb Ha Hab) as Hge.
    pose proof (NumFacts.ge_gt_trans _ _ _ Hge Hca) as Hlt.
    unfold Num.gt in Hbc. unfold Num.lt in Hlt. congruence.
Qed.

Lemma fold_higher_cons (l : list Product) (x best : Product) :
  priced best -> priced x -> Forall priced l ->
  fold_left higher (x :: l) best = higher best (fold_left higher l x).
Proof.
  revert x best. induction l as [|y l IH]; intros x best Hb Hx Hl.
  - reflexivity.
  - inversion Hl as [|? ? Hy Hl']; subst.
    change (fold_left higher (x :: y :: l) best)
      with (fold_left higher (y :: l) (higher best x)).
    rewrite (IH y (higher best x) (higher_priced _ _ Hb Hx) Hy Hl').
    change (fold_left higher (y :: l) x) with (fold_left higher l (higher x y)).
    assert (E : fold_left higher l (higher x y) = higher x (fold_left higher l y)).
    { exact (IH y x Hx Hy Hl'). }
    rewrite E. now apply higher_assoc.
Qed.

(** X9: when no price is [NaN], the most expensive product of two lists put
    one after the other is the more expensive of the two lists' results,
    the first list's on a tie. *)
Theorem getMostExpensiveProduct_app (l1 l2 : list Product) :
  l1 <> [] -> l2 <> [] ->
  Forall priced l1 -> Forall priced l2 ->
  exists b1 b2,
    getMostExpensiveProduct l1 = Some b1
    /\ getMostExpensiveProduct l2 = Some b2
    /\ getMostExpensiveProduct (l1 ++ l2) = Some (higher b1 b2).
Proof.
  intros H1 H2 P1 P2.
  destruct l1 as [|f1 r1]; [congruence|].
  destruct l2 as [|f2 r2]; [congruence|].
  exists (fold_left higher (f1 :: r1) f1), (fold_left higher (f2 :: r2) f2).
  split; [reflexivity|]. split; [reflexivity|].
  change (getMostExpensiveProduct ((f1 :: r1) ++ f2 :: r2))
    with (Some (fold_left higher ((f1 :: r1) ++ f2 :: r2) f1)).
  f_equal. rewrite fold_left_app.
  inversion P2 as [|? ? Pf2 Pr2]; subst.
  assert (Pb1 : priced (fold_left higher (f1 :: r1) f1)).
  { rewrite Forall_forall in P1. apply P1.
    simpl fold_left. rewrite higher_self. apply fold_higher_In. }
  rewrite (fold_higher_cons r2 f2 _ Pb1 Pf2 Pr2).
  f_equal. simpl. now rewrite higher_self.
Qed.

Lemma getMostExpensiveProduct_app_witness :
  [pen; ink] <> [] /\ [nib; pen] <> []
  /\ Forall priced [pen; ink] /\ Forall priced [nib; pen]
  /\ getMostExpensiveProduct ([pen; ink] ++ [nib; pen]) = Some ink.
Proof.
  assert (H1 : [pen; ink] <> []) by discriminate.
  assert (H2 : [nib; pen] <> []) by discriminate.
  assert (P1 : Forall priced [pen; ink]) by (repeat constructor).
  assert (P2 : Forall priced [nib; pen]) by (repeat constructor).
  repeat (split; [assumption|]).
  destruct (getMostExpensiveProduct_app [pen; ink] [nib; pen] H1 H2 P1 P2)
    as (b1 & b2 & E1 & E2 & E).
  rewrite E. injection E1 as <-. injection E2 as <-. reflexivity.
Defined.

(** X10: when no price is [NaN], the order of the list decides which
    product is returned among those of the highest price, and nothing else:
    the same products in another order give a result of the same price. *)
Theorem getMostExpensiveProduct_permutation (l1 l2 : list Product)
        (b1 b2 : Product) :
  Permutation l1 l2 ->
  Forall priced l1 ->
  getMostExpensiveProduct l1 = Some b1 ->
  getMostExpensiveProduct l2 = Some b2 ->
  Num.ge (price b1) (price b2) = true /\ Num.ge (price b2) (price b1) = true.
Proof.
  intros Hperm P1 E1 E2.
  assert (P2 : Forall priced l2).
  { rewrite Forall_forall in *. intros p Hp. apply P1.
    apply (Permutation_in p (Permutation_sym Hperm) Hp). }
  pose proof (scan_member l1 b1 E1) as In1.
  pose proof (scan_member l2 b2 E2) as In2.
  pose proof (scan_unbeaten l1 b1 E1) as U1.
  pose proof (scan_unbeaten l2 b2 E2) as U2.
  rewrite Forall_forall in P1, P2, U1, U2.
  assert (In21 : In b2 l1)
    by exact (Permutation_in b2 (Permutation_sym Hperm) In2).
  assert (In12 : In b1 l2) by exact (Permutation_in b1 Hperm In1).
  split.
  - apply NumFacts.not_gt_ge; [apply P1, In21|apply P1, In1|apply U1, In21].
  - apply NumFacts.not_gt_ge; [apply P2, In12|apply P2, In2|apply U2, In12].
Qed.

Lemma getMostExpensiveProduct_permutation_witness :
  Permutation [pen; ink; nib] [nib; pen; ink]
  /\ Forall priced [pen; ink; nib]
  /\ getMostExpensiveProduct [pen; ink; nib] = Some ink
  /\ getMostExpensiveProduct [nib; pen; ink] = Some nib
  /\ Num.ge (price ink) (price nib) = true
  /\ Num.ge (price nib) (price ink) = true.
Proof.
  assert (Hperm : Permutation [pen; ink; nib] [nib; pen; ink]).
  { apply Permutation_sym.
    apply (Permutation_cons_app [pen; ink] [] nib). apply Permutation_refl. }
  assert (P : Forall priced [pen; ink; nib]) by (repeat constructor).
  assert (E1 : getMostExpensiveProduct [pen; ink; nib] = Some ink)
    by reflexivity.
  assert (E2 : getMostExpensiveProduct [nib; pen; ink] = Some nib)
    by reflexivity.
  split; [exact Hperm|]. split; [exact P|].
  split; [exact E1|]. split; [exact E2|].
  exact (getMostExpensiveProduct_permutation _ _ _ _ Hperm P E1 E2).
Defined.

(** ** [processValue], again *)

(** X11: doubling at the edges.  [NaN] gives [NaN] and nothing else does;
    the zeros and the infinities are returned as they are; a finite number
    gives an infinity, of its own sign, exactly when its exponent is the
    largest one, that is when [|n| >= 2 ^ 1023]. *)
Theorem processValue_edges (n : number) :
  Num.well_formed n ->
  Num.isNaN (processValue (a_number n)) = Num.isNaN n
  /\ (forall s, n = S754_zero s \/ n = S754_infinity s ->
                processValue (a_number n) = n)
  /\ (forall s m e, n = S754_finite s m e ->
        (processValue (a_number n) = S754_infinity s <-> e = 971%Z)
        /\ (e <> 971%Z -> exists m' e',
              processValue (a_number n) = S754_finite s m' e')).
Proof.
  intros Hn. split; [|split].
  - destruct n as [s|s| |s m e]; try reflexivity.
    cbn [processValue]. rewrite (Rounding.mul_two_finite s m e Hn).
    destruct (Zpos (digits2_pos m) =? 53)%Z; [|reflexivity].
    destruct (e + 1 <=? 971)%Z; reflexivity.
  - intros s [->| ->]; simpl; now rewrite xorb_false_r.
  - intros s m e ->. cbn [processValue].
    rewrite (Rounding.mul_two_finite s m e Hn).
    unfold Num.well_formed in Hn. simpl in Hn.
    rewrite Rounding.bounded_eq, andb_true_iff, Z.eqb_eq, Z.leb_le in Hn.
    destruct Hn as [Hc He].
    destruct (Z.eqb_spec (Zpos (digits2_pos m)) 53) as [Hd|Hd].
    + destruct (Z.leb_spec (e + 1) 971) as [Hle|Hgt].
      * split; [split; [discriminate|lia]|]. intros _. now exists m, (e + 1)%Z.
      * split; [split; [lia|reflexivity]|]. lia.
    + split; [split; [discriminate|lia]|]. intros _. now exists (xO m), e.
Qed.

Lemma processValue_edges_witness :
  Num.well_formed (S754_finite false 9007199254740991 971)
  /\ processValue (a_number (S754_finite false 9007199254740991 971))
     = S754_infinity false.
Proof.
  assert (H : Num.well_formed (S754_finite false 9007199254740991 971))
    by reflexivity.
  split; [exact H|].
  apply (proj2 (proj2 (processValue_edges _ H)) false 9007199254740991%positive
               971%Z eq_refl).
  reflexivity.
Defined.

(** ** [squareAsync], again *)

(** X12: the promise is pending as long as less than 1000 milliseconds have
    passed, and from 1000 on it is settled: rejected for [n < 0], fulfilled
    with [n ** 2] otherwise. *)
Theorem squareAsync_after (n : number) (ms : N) :
  Timers.state (Timers.advance ms (squareAsync n))
  = if (ms <? 1000)%N then Timers.Pending
    else if Num.lt n Num.zero then Timers.Rejected negative_error
    else Timers.Fulfilled (Num.square n).
Proof.
  rewrite squareAsync_delay, squareAsync_await. reflexivity.
Qed.

(** X13: waiting in two parts is waiting once for the sum, so a promise
    that has settled keeps its state however long one goes on waiting. *)
Theorem squareAsync_wait_twice (n : number) (a b : N) :
  Timers.advance b (Timers.advance a (squareAsync n))
  = Timers.advance (a + b) (squareAsync n)
  /\ (Timers.state (Timers.advance a (squareAsync n)) <> Timers.Pending ->
      Timers.state (Timers.advance (a + b) (squareAsync n))
      = Timers.state (Timers.advance a (squareAsync n))).
Proof.
  split.
  - unfold squareAsync, Timers.new_Promise, Timers.setTimeout, Timers.advance.
    simpl.
    destruct (N.leb_spec 1000 a) as [Ha|Ha]; simpl.
    + destruct (N.leb_spec 1000 (a + b)) as [Hab|Hab]; [reflexivity|lia].
    + destruct (N.leb_spec 1000 (a + b)) as [Hab|Hab]; reflexivity.
  - rewrite !squareAsync_delay.
    destruct (N.ltb_spec a 1000) as [Ha|Ha]; [congruence|].
    intros _. destruct (N.ltb_spec (a + b) 1000) as [Hab|Hab]; [lia|reflexivity].
Qed.

Lemma squareAsync_wait_twice_witness :
  Timers.state (Timers.advance 1200 (squareAsync (Num.of_Z 3))) <> Timers.Pending
  /\ Timers.state (Timers.advance (1200 + 5000) (squareAsync (Num.of_Z 3)))
     = Timers.state (Timers.advance 1200 (squareAsync (Num.of_Z 3))).
Proof.
  assert (H : Timers.state (Timers.advance 1200 (squareAsync (Num.of_Z 3)))
              <> Timers.Pending) by discriminate.
  split; [exact H|].
  exact (proj2 (squareAsync_wait_twice (Num.of_Z 3) 1200 5000) H).
Defined.

Lemma round_sign (s : bool) (m e : Z) (l : location) :
  match binary_round_aux Num.prec Num.emax s m e l with
  | S754_zero s' | S754_infinity s' | S754_finite s' _ _ => s' = s
  | S754_nan => True
  end.
Proof.
  unfold binary_round_aux.
  destruct (shr_fexp Num.prec Num.emax m e l) as [mrs' e'].
  destruct (shr_fexp Num.prec Num.emax _ e' loc_Exact) as [mrs'' e''].
  destruct (shr_m mrs''); [reflexivity| |exact I].
  destruct (IntDef.Z.leb e'' (IntDef.Z.sub Num.emax Num.prec)); reflexivity.
Qed.

Lemma square_not_negative (n : number) :
  Num.lt (Num.square n) Num.zero = false.
Proof.
  destruct n as [s|s| |s m e];
    [destruct s; reflexivity|destruct s; reflexivity|reflexivity|].
  unfold Num.square. rewrite Rounding.mul_eq, xorb_nilpotent.
  pose proof (round_sign false (Zpos (m * m)) (e + e) loc_Exact) as H.
  destruct (binary_round_aux Num.prec Num.emax false (Zpos (m * m)) (e + e) loc_Exact);
    try subst; reflexivity.
Qed.

(** X14: the value the promise is fulfilled with is never below zero, and
    once an input is rejected its opposite is fulfilled. *)
Theorem squareAsync_not_negative (n : number) :
  (forall v, Timers.await (squareAsync n) = Timers.Fulfilled v ->
             Num.lt v Num.zero = false)
  /\ (Timers.await (squareAsync n) = Timers.Rejected negative_error ->
      Timers.await (squareAsync (SFopp n)) = Timers.Fulfilled (Num.square n)).
Proof.
  rewrite !squareAsync_await. split.
  - intros v. destruct (Num.lt n Num.zero); [discriminate|].
    intros E. injection E as <-. apply square_not_negative.
  - destruct (Num.lt n Num.zero) eqn:E; [|discriminate]. intros _.
    assert (Hopp : Num.lt (SFopp n) Num.zero = false)
      by (destruct n as [s|s| |s m e]; try destruct s; try discriminate; reflexivity).
    rewrite Hopp. f_equal.
    destruct n as [s|s| |s m e]; try discriminate; unfold Num.square;
      simpl SFopp.
    + destruct s; reflexivity.
    + rewrite !Rounding.mul_eq. now destruct s.
Qed.

Lemma squareAsync_not_negative_witness :
  Timers.await (squareAsync (Num.of_Z (-3))) = Timers.Rejected negative_error
  /\ Timers.await (squareAsync (SFopp (Num.of_Z (-3))))
     = Timers.Fulfilled (Num.of_Z 9).
Proof.
  assert (H : Timers.await (squareAsync (Num.of_Z (-3)))
              = Timers.Rejected negative_error) by reflexivity.
  split; [exact H|].
  exact (proj2 (squareAsync_not_negative (Num.of_Z (-3))) H).
Defined.

(** ** [Day], again *)

(** X15: the members of [Day] are numbered 0 to 6, no two alike, so that
    [===] tells any two members apart; the weekend is the members numbered
    5 and above. *)
Theorem Day_numbering (a b : Day) :
  (Day_value a <= 6)%N
  /\ (Day_value a = Day_value b <-> a = b)
  /\ (Day_eqb a b = true <-> a = b)
  /\ (getDayType a = Str.lit "Weekend" <-> (5 <= Day_value a)%N).
Proof.
  split; [destruct a; vm_compute; discriminate|].
  split; [|split].
  - split; [|now intros ->].
    destruct a, b; simpl; intros E; try reflexivity; discriminate E.
  - unfold Day_eqb. rewrite N.eqb_eq.
    split; [|now intros ->].
    destruct a, b; simpl; intros E; try reflexivity; discriminate E.
  - destruct a;
      (split;
       [intros E; first [discriminate E | vm_compute; discriminate]
       |intros E; first [reflexivity | exfalso; apply E; reflexivity]]).
Qed.
